(** * Verification of src/hooks/usePushNotifications.ts

    A shallow embedding of the push-notification hook: the outbound
    [sendPushNotification], the [registerForPushNotificationsAsync]
    registration procedure, and the [usePushNotifications] hook as a
    process-level state machine (module-level [areListenersReady] guard,
    mounted hook instances with their React state cells, attached
    listeners, and registrations in flight). *)

From stdpp Require Import base list strings pretty.
From Stdlib Require Import ZArith Ascii.
Import ListNotations.

Open Scope string_scope.
Set Warnings "-register-all".

(* ------------------------------------------------------------------ *)
(** ** JavaScript values used by the code *)

(** A thrown JavaScript error object ([new Error(msg)] has name ["Error"]). *)
Record js_error := JsError { err_name : string; err_message : string }.

(** [`${error}`] on an error object: [Error.prototype.toString]. *)
Definition error_to_string (e : js_error) : string :=
  if String.eqb (err_message e) "" then err_name e
  else if String.eqb (err_name e) "" then err_message e
  else err_name e ++ ": " ++ err_message e.

(** The settled outcome of a promise / of an async computation. *)
Inductive result (A : Type) :=
| Ok (a : A)
| Err (e : js_error).
Arguments Ok {A} a.
Arguments Err {A} e.

(** JavaScript values, as far as [JSON.stringify] sees them (numbers are
    the integral ones). *)
Inductive jsval :=
| JUndefined
| JNull
| JBool (b : bool)
| JNum (z : Z)
| JStr (s : string)
| JArr (l : list jsval)
| JObj (fields : list (string * jsval)).

Definition hex_digit (n : nat) : ascii :=
  if Nat.ltb n 10 then ascii_of_nat (48 + n) else ascii_of_nat (87 + n).

Definition str1 (c : ascii) : string := String c EmptyString.
Definition dquote : string := str1 (ascii_of_nat 34).
Definition bslash : string := str1 (ascii_of_nat 92).

(** String escaping of [JSON.stringify] (QuoteJSONString) on byte strings. *)
Definition json_escape_char (c : ascii) : string :=
  let n := nat_of_ascii c in
  if Nat.eqb n 34 then bslash ++ dquote
  else if Nat.eqb n 92 then bslash ++ bslash
  else if Nat.eqb n 8 then bslash ++ "b"
  else if Nat.eqb n 12 then bslash ++ "f"
  else if Nat.eqb n 10 then bslash ++ "n"
  else if Nat.eqb n 13 then bslash ++ "r"
  else if Nat.eqb n 9 then bslash ++ "t"
  else if Nat.ltb n 32 then bslash ++ "u00" ++ str1 (hex_digit (Nat.div n 16)) ++ str1 (hex_digit (Nat.modulo n 16))
  else str1 c.

Fixpoint json_escape (s : string) : string :=
  match s with
  | EmptyString => EmptyString
  | String c rest => json_escape_char c ++ json_escape rest
  end.

Definition json_quote (s : string) : string := dquote ++ json_escape s ++ dquote.

(** [JSON.stringify]: [None] is the [undefined] result; object members whose
    value is [undefined] are omitted, [undefined] array elements become
    [null]. *)
Fixpoint JSON_stringify (v : jsval) : option string :=
  match v with
  | JUndefined => None
  | JNull => Some "null"
  | JBool b => Some (if b then "true" else "false")
  | JNum z => Some (pretty z)
  | JStr s => Some (json_quote s)
  | JArr l =>
      Some ("[" ++ String.concat ","
                    (map (fun x => match JSON_stringify x with
                                   | Some t => t | None => "null" end) l) ++ "]")
  | JObj fs =>
      Some ("{" ++ String.concat ","
                    (flat_map (fun kv => match JSON_stringify (snd kv) with
                                         | Some t => [json_quote (fst kv) ++ ":" ++ t]
                                         | None => [] end) fs) ++ "}")
  end.

(** ASCII lower-casing; [Headers] compares header names case-insensitively. *)
Definition ascii_lower (c : ascii) : ascii :=
  let n := nat_of_ascii c in
  if Nat.leb 65 n && Nat.leb n 90 then ascii_of_nat (n + 32) else c.

Fixpoint string_lower (s : string) : string :=
  match s with
  | EmptyString => EmptyString
  | String c rest => String (ascii_lower c) (string_lower rest)
  end.

(** A [fetch] request. *)
Record Request := {
  req_url : string;
  req_method : string;
  req_headers : list (string * string);
  req_body : option string
}.

(** [request.headers.get(name)] *)
Definition header_get (r : Request) (name : string) : option string :=
  option_map snd
    (List.find (fun kv => String.eqb (string_lower (fst kv)) (string_lower name))
               (req_headers r)).

(* ------------------------------------------------------------------ *)
(** ** Observable effects of the hook's code *)

Inductive effect :=
| ESetNotificationChannel (channel : string)     (* Notifications.setNotificationChannelAsync *)
| EGetPermissions                                (* Notifications.getPermissionsAsync *)
| ERequestPermissions                            (* Notifications.requestPermissionsAsync *)
| EGetExpoPushToken (projectId : option string)  (* Notifications.getExpoPushTokenAsync (network) *)
| EAlert (msg : string)                          (* alert *)
| ELog (platform token : string)                 (* console.log *)
| EFetch (req : Request).                        (* fetch (network) *)

(** A small state/error monad: the trace of effects is threaded through,
    an [Err] is a thrown exception (an async rejection). *)
Definition M (A : Type) := list effect -> list effect * result A.

Definition ret {A} (a : A) : M A := fun tr => (tr, Ok a).
Definition throw {A} (e : js_error) : M A := fun tr => (tr, Err e).
Definition bind {A B} (m : M A) (k : A -> M B) : M B :=
  fun tr => match m tr with
            | (tr', Ok a) => k a tr'
            | (tr', Err e) => (tr', Err e)
            end.
Definition emit (ev : effect) : M unit := fun tr => ((tr ++ [ev])%list, Ok tt).
(** [await] on an external call: the call is recorded, then the promise
    settles with the collaborator's answer. *)
Definition call {A} (ev : effect) (answer : result A) : M A :=
  fun tr => ((tr ++ [ev])%list, answer).
(** [try { m } catch (error) { h(error) }] *)
Definition try_catch {A} (m : M A) (h : js_error -> M A) : M A :=
  fun tr => match m tr with
            | (tr', Ok a) => (tr', Ok a)
            | (tr', Err e) => h e tr'
            end.

Notation "'let*' x := m 'in' k" := (bind m (fun x => k))
  (at level 200, x name, m at level 100, k at level 200).
Notation "m ;;; k" := (bind m (fun _ => k))
  (at level 100, right associativity).

Definition run_M {A} (m : M A) : list effect * result A := m [].

(* ------------------------------------------------------------------ *)
(** ** The collaborators (expo-device, expo-constants, expo-notifications) *)

Record Env := {
  Platform_OS : string;
  Device_isDevice : bool;
  setNotificationChannelAsync : result unit;
  getPermissionsAsync : result string;          (* .status *)
  requestPermissionsAsync : result string;      (* .status *)
  expoConfig_projectId : option string;         (* Constants?.expoConfig?.extra?.eas?.projectId *)
  easConfig_projectId : option string;          (* Constants?.easConfig?.projectId *)
  getExpoPushTokenAsync : option string -> result string  (* (...).data *)
}.

(** [a ?? b] on possibly-undefined values. *)
Definition nullish {A} (a b : option A) : option A :=
  match a with Some x => Some x | None => b end.

(** [!projectId]: undefined and the empty string are falsy. *)
Definition falsy (v : option string) : bool :=
  match v with None => true | Some s => String.eqb s "" end.

(** [handleRegistrationError]: alert, then throw [new Error(errorMessage)]. *)
Definition handleRegistrationError (errorMessage : string) : M unit :=
  emit (EAlert errorMessage) ;;;
  throw (JsError "Error" errorMessage).

(** [registerForPushNotificationsAsync]; [None] is the [undefined] result. *)
Definition registerForPushNotificationsAsync (env : Env) : M (option string) :=
  (if String.eqb (Platform_OS env) "android"
   then call (ESetNotificationChannel "default") (setNotificationChannelAsync env)
   else ret tt) ;;;
  if Device_isDevice env then
   (let* existingStatus := call EGetPermissions (getPermissionsAsync env) in
    let* finalStatus :=
      (if negb (String.eqb existingStatus "granted")
       then (let* status := call ERequestPermissions (requestPermissionsAsync env) in
             ret status)
       else ret existingStatus) in
    if negb (String.eqb finalStatus "granted") then
      (handleRegistrationError
         "Permission not granted to get push token for push notification!" ;;;
       ret None)
    else
      let projectId := nullish (expoConfig_projectId env) (easConfig_projectId env) in
      (if falsy projectId then handleRegistrationError "Project ID not found"
       else ret tt) ;;;
      try_catch
        (let* pushTokenString := call (EGetExpoPushToken projectId)
                                 (getExpoPushTokenAsync env projectId) in
         emit (ELog (Platform_OS env) pushTokenString) ;;;
         ret (Some pushTokenString))
        (fun error => handleRegistrationError (error_to_string error) ;;; ret None))
  else
    handleRegistrationError "Must use physical device for push notifications" ;;;
    ret None.

(** The first effect of the hook:
    [registerForPushNotificationsAsync()
       .then((token) => setExpoPushToken(token ?? ""))
       .catch((error) => setExpoPushToken(`${error}`))];
    the computed value is the one handed to [setExpoPushToken]. *)
Definition registration_chain (env : Env) : M string :=
  try_catch
    (let* token := registerForPushNotificationsAsync env in
     ret (match token with Some t => t | None => "" end))
    (fun error => ret (error_to_string error)).

(* ------------------------------------------------------------------ *)
(** ** [sendPushNotification] *)

(** What [fetch] settles with: a response with its HTTP status, or a
    rejection (network failure). *)
Inductive fetch_result :=
| FetchResponse (status : Z)
| FetchRejected (e : js_error).

Record SendPushOptions := {
  to : list string;
  title : string;
  body : string;
  data : option (list (string * jsval))   (* [data?: Record<string, any>] *)
}.

Definition push_send_url : string := "https://exp.host/--/api/v2/push/send".

(** The [message] object built from the options. *)
Definition push_message (options : SendPushOptions) : jsval :=
  JObj [("to", JArr (map JStr (to options)));
        ("sound", JStr "default");
        ("title", JStr (title options));
        ("body", JStr (body options));
        ("data", match data options with Some d => JObj d | None => JUndefined end)].

(** The [fetch] request issued for [options]. *)
Definition push_request (options : SendPushOptions) : Request :=
  {| req_url := push_send_url;
     req_method := "POST";
     req_headers := [("Accept", "application/json");
                     ("Accept-encoding", "gzip, deflate");
                     ("Content-Type", "application/json")];
     req_body := JSON_stringify (push_message options) |}.

(** [async function sendPushNotification(options)]: [await fetch(...)], the
    response is not looked at, and there is no try/catch. *)
Definition sendPushNotification (fetch : Request -> fetch_result)
    (options : SendPushOptions) : M unit :=
  let req := push_request options in
  call (EFetch req)
       (match fetch req with
        | FetchResponse _ => Ok tt
        | FetchRejected e => Err e
        end).

(* ------------------------------------------------------------------ *)
(** ** [usePushNotifications] as a process-level state machine *)

(** A received notification (the parts of [Notifications.Notification]
    the program handles; it only stores and forwards whole records). *)
Record Notification := {
  date : Z;
  request_identifier : string;
  content_title : option string;
  content_body : option string
}.

(** The React state cells of one mounted use of the hook. *)
Record Instance := {
  expoPushToken : string;
  notifications : list Notification;
  mounted : bool
}.

(** The process: the module-level [let areListenersReady], the hook
    instances (indexed by mount order), the attached listeners, and the
    registration promises in flight.  A "notification received" listener
    is the instance it belongs to together with the value of
    [notifications] its closure captured. [registerInvocations] logs every
    call of [registerForPushNotificationsAsync] by the hook's first effect. *)
Record Proc := {
  areListenersReady : bool;
  instances : list Instance;
  receivedListeners : list (nat * list Notification);
  responseListeners : list nat;
  pendingRegistrations : list nat;
  registerInvocations : list nat
}.

Definition initial_proc : Proc :=
  {| areListenersReady := false; instances := []; receivedListeners := [];
     responseListeners := []; pendingRegistrations := []; registerInvocations := [] |}.

Definition setExpoPushToken (v : string) (h : Instance) : Instance :=
  {| expoPushToken := v; notifications := notifications h; mounted := mounted h |}.
Definition setNotifications (v : list Notification) (h : Instance) : Instance :=
  {| expoPushToken := expoPushToken h; notifications := v; mounted := mounted h |}.
Definition unmount_instance (h : Instance) : Instance :=
  {| expoPushToken := expoPushToken h; notifications := notifications h; mounted := false |}.

(** Mounting a component that calls [usePushNotifications]: the first
    render creates the state cells ([useState("")], [useState([])]), then
    both [useEffect(..., [])] bodies run once, in order. *)
Definition mount (s : Proc) : Proc :=
  let id := length (instances s) in
  let h := {| expoPushToken := ""; notifications := []; mounted := true |} in
  let s1 := {| areListenersReady := areListenersReady s;
               instances := instances s ++ [h];
               receivedListeners := receivedListeners s;
               responseListeners := responseListeners s;
               pendingRegistrations := pendingRegistrations s;
               registerInvocations := registerInvocations s |} in
  (* first effect: if (areListenersReady) return; registerForPushNotificationsAsync()... *)
  let s2 := if areListenersReady s1 then s1 else
            {| areListenersReady := areListenersReady s1;
               instances := instances s1;
               receivedListeners := receivedListeners s1;
               responseListeners := responseListeners s1;
               pendingRegistrations := pendingRegistrations s1 ++ [id];
               registerInvocations := registerInvocations s1 ++ [id] |} in
  (* second effect: if (areListenersReady) return; areListenersReady = true; add listeners *)
  if areListenersReady s2 then s2 else
  {| areListenersReady := true;
     instances := instances s2;
     receivedListeners := receivedListeners s2 ++ [(id, notifications h)];
     responseListeners := responseListeners s2 ++ [id];
     pendingRegistrations := pendingRegistrations s2;
     registerInvocations := registerInvocations s2 |}.

(** Unmounting instance [i]: the cleanup of the second effect removes the
    listeners it attached; the guard is left as it is. *)
Definition unmount (i : nat) (s : Proc) : Proc :=
  match instances s !! i with
  | Some h =>
      if mounted h then
        {| areListenersReady := areListenersReady s;
           instances := alter unmount_instance i (instances s);
           receivedListeners := List.filter (fun l => negb (Nat.eqb (fst l) i)) (receivedListeners s);
           responseListeners := List.filter (fun j => negb (Nat.eqb j i)) (responseListeners s);
           pendingRegistrations := pendingRegistrations s;
           registerInvocations := registerInvocations s |}
      else s
  | None => s
  end.

(** Runs the attached "notification received" listeners in order: each one
    calls [setNotifications([notification, ...notifications])] on its own
    instance, with the [notifications] its closure captured. *)
Definition notify_all (n : Notification) (ls : list (nat * list Notification))
    (insts : list Instance) : list Instance :=
  fold_left (fun insts l => alter (setNotifications (n :: snd l)) (fst l) insts) ls insts.

(** An incoming notification: every attached "notification received"
    listener runs [setNotifications([notification, ...notifications])] with
    the [notifications] its closure captured. *)
Definition receive (n : Notification) (s : Proc) : Proc :=
  {| areListenersReady := areListenersReady s;
     instances := notify_all n (receivedListeners s) (instances s);
     receivedListeners := receivedListeners s;
     responseListeners := responseListeners s;
     pendingRegistrations := pendingRegistrations s;
     registerInvocations := registerInvocations s |}.

(** The registration promise of instance [i] settles, the collaborators
    answering as [env] says; the chain's handler calls [setExpoPushToken]. *)
Definition settle (i : nat) (env : Env) (s : Proc) : Proc :=
  if existsb (Nat.eqb i) (pendingRegistrations s) then
    let pending := List.filter (fun j => negb (Nat.eqb j i)) (pendingRegistrations s) in
    match snd (run_M (registration_chain env)) with
    | Ok v =>
        {| areListenersReady := areListenersReady s;
           instances := alter (setExpoPushToken v) i (instances s);
           receivedListeners := receivedListeners s;
           responseListeners := responseListeners s;
           pendingRegistrations := pending;
           registerInvocations := registerInvocations s |}
    | Err _ =>
        {| areListenersReady := areListenersReady s;
           instances := instances s;
           receivedListeners := receivedListeners s;
           responseListeners := responseListeners s;
           pendingRegistrations := pending;
           registerInvocations := registerInvocations s |}
    end
  else s.

Inductive Event :=
| Mount
| Unmount (i : nat)
| Receive (n : Notification)
| Settle (i : nat) (env : Env).

Definition step (s : Proc) (e : Event) : Proc :=
  match e with
  | Mount => mount s
  | Unmount i => unmount i s
  | Receive n => receive n s
  | Settle i env => settle i env s
  end.

Definition run (s : Proc) (evs : list Event) : Proc := fold_left step evs s.

(* ------------------------------------------------------------------ *)
(** ** Auxiliary definitions for the statements *)

(** Effects that belong to the permission logic or go to the network. *)
Definition permission_or_network (ev : effect) : bool :=
  match ev with
  | EGetPermissions | ERequestPermissions | EGetExpoPushToken _ | EFetch _ => true
  | _ => false
  end.

Definition token_fetch (ev : effect) : bool :=
  match ev with
  | EGetExpoPushToken _ | EFetch _ => true
  | _ => false
  end.

Definition resolved_projectId (env : Env) : option string :=
  nullish (expoConfig_projectId env) (easConfig_projectId env).

Definition physical_device_error : js_error :=
  JsError "Error" "Must use physical device for push notifications".

Definition project_id_error : js_error := JsError "Error" "Project ID not found".

(** Sample collaborators. *)
Definition sample_env (os : string) (isDevice : bool) (channel : result unit)
    (perm req : result string) (eas : option string) (tok : result string) : Env :=
  {| Platform_OS := os; Device_isDevice := isDevice;
     setNotificationChannelAsync := channel;
     getPermissionsAsync := perm; requestPermissionsAsync := req;
     expoConfig_projectId := None; easConfig_projectId := eas;
     getExpoPushTokenAsync := fun _ => tok |}.

(** The Android emulator whose channel setup is rejected. *)
Definition emulator_channel_rejected : Env :=
  sample_env "android" false (Err (JsError "Error" "channel setup failed"))
    (Ok "granted") (Ok "granted") (Some "proj") (Ok "ExponentPushToken[abc123]").

Definition p7_options : SendPushOptions :=
  {| to := ["tok1"]; title := "T"; body := "B"; data := None |}.

Definition mk_notification (id : string) : Notification :=
  {| date := 0; request_identifier := id; content_title := None; content_body := None |}.

(** Invariants of the reachable process states. *)
Definition listeners_wf (s : Proc) : Prop :=
  forall l, In l (receivedListeners s) -> snd l = [] /\ fst l < length (instances s).

Definition stored_small (s : Proc) : Prop :=
  forall i h, instances s !! i = Some h -> length (notifications h) <= 1.

Definition registrations_wf (s : Proc) : Prop :=
  (forall j, In j (registerInvocations s) -> j < length (instances s)) /\
  (forall j, In j (pendingRegistrations s) -> In j (registerInvocations s)).

Definition unregistered_token_empty (s : Proc) : Prop :=
  forall i h, instances s !! i = Some h -> ~ In i (registerInvocations s) ->
              expoPushToken h = "".

Definition guard_wf (s : Proc) : Prop :=
  length (receivedListeners s) <= 1 /\
  (areListenersReady s = false -> receivedListeners s = []).

Definition Inv (s : Proc) : Prop :=
  listeners_wf s /\ stored_small s /\ registrations_wf s /\
  unregistered_token_empty s /\ guard_wf s.

Definition permission_error : js_error :=
  JsError "Error" "Permission not granted to get push token for push notification!".

Definition is_alert (ev : effect) : bool :=
  match ev with EAlert _ => true | _ => false end.

Definition is_request_permissions (ev : effect) : bool :=
  match ev with ERequestPermissions => true | _ => false end.

Definition is_token_request (ev : effect) : bool :=
  match ev with EGetExpoPushToken _ => true | _ => false end.

(** Number of effects of a kind in a trace. *)
Definition count (p : effect -> bool) (tr : list effect) : nat :=
  length (List.filter p tr).

(** The part of the run that precedes the device check: off Android there
    is none; on Android it is the channel setup, which must resolve. *)
Definition channel_ok (env : Env) : Prop :=
  Platform_OS env <> "android" \/ setNotificationChannelAsync env = Ok tt.

(** Shape of the reachable process states: before the first mount nothing
    exists; afterwards the registration was invoked for instance 0 only,
    every listener belongs to instance 0, and the two listener lists are
    attached and removed together. *)
Definition hook_shape (s : Proc) : Prop :=
  (areListenersReady s = false ->
     instances s = [] /\ registerInvocations s = [] /\ receivedListeners s = []) /\
  (areListenersReady s = true ->
     registerInvocations s = [0] /\ Forall (fun l => fst l = 0) (receivedListeners s)) /\
  responseListeners s = map fst (receivedListeners s).

Definition is_mount (e : Event) : bool :=
  match e with Mount => true | _ => false end.

(* ------------------------------------------------------------------ *)
(** ** Proof automation for the monad *)

(** Splits a run of the registration procedure on every collaborator answer
    and every branch the code takes. *)
Ltac split_run :=
  repeat (simpl in *;
    match goal with
    | |- context [String.eqb ?x ?y] => destruct (String.eqb_spec x y)
    | |- context [match ?r with Ok _ => _ | Err _ => _ end] => destruct r eqn:?
    | |- context [if ?b then _ else _] => destruct b eqn:?
    end).

Ltac unfold_M :=
  unfold run_M, registration_chain, registerForPushNotificationsAsync,
    handleRegistrationError, sendPushNotification, bind, ret, throw, emit,
    call, try_catch in *.

(* ------------------------------------------------------------------ *)
(** ** Basic facts about the registration procedure *)

(* ------------------------------------------------------------------ *)
(** ** C7: registration off a physical device *)

(** C7 (counterexample): it is not the case that every invocation off a
    physical device fails with the not-a-physical-device error: on Android
    the notification-channel setup runs before the device check, and when
    it rejects, the procedure rejects with that error instead. *)
Lemma C7_channel_rejection_precedes_device_check :
  ~ (forall env, Device_isDevice env = false ->
       snd (run_M (registerForPushNotificationsAsync env)) = Err physical_device_error).
Proof.
  intros H. specialize (H emulator_channel_rejected eq_refl).
  vm_compute in H. discriminate.
Qed.

(** C7 (amended): off a physical device the procedure never reaches the
    permission query/request or any network call, and it always rejects:
    with the not-a-physical-device error (after alerting it) whenever the
    Android channel setup that precedes the device check did not reject
    (always so off Android), and otherwise with the channel-setup error. *)
Theorem register_non_physical_device (env : Env) :
  Device_isDevice env = false ->
  forallb (fun ev => negb (permission_or_network ev))
          (fst (run_M (registerForPushNotificationsAsync env))) = true /\
  ((Platform_OS env <> "android" \/ setNotificationChannelAsync env = Ok tt) ->
     snd (run_M (registerForPushNotificationsAsync env)) = Err physical_device_error /\
     In (EAlert "Must use physical device for push notifications")
        (fst (run_M (registerForPushNotificationsAsync env)))) /\
  (forall e, Platform_OS env = "android" -> setNotificationChannelAsync env = Err e ->
     snd (run_M (registerForPushNotificationsAsync env)) = Err e).
Proof.
  intros Hdev. unfold_M. rewrite Hdev.
  destruct (String.eqb_spec (Platform_OS env) "android") as [Ha|Ha].
  - destruct (setNotificationChannelAsync env) as [[]|e0]; simpl.
    + split; [reflexivity|split].
      * intros _. split; [reflexivity|simpl; tauto].
      * intros e _ H; discriminate.
    + split; [reflexivity|split].
      * intros [H|H]; [contradiction|discriminate].
      * intros e _ H; congruence.
  - simpl. split; [reflexivity|split].
    + intros _. split; [reflexivity|simpl; tauto].
    + intros e H; contradiction.
Qed.

Lemma register_non_physical_device_witness :
  Device_isDevice emulator_channel_rejected = false /\
  forallb (fun ev => negb (permission_or_network ev))
          (fst (run_M (registerForPushNotificationsAsync emulator_channel_rejected))) = true.
Proof.
  split; [reflexivity|].
  apply (proj1 (register_non_physical_device emulator_channel_rejected eq_refl)).
Defined.

(* ------------------------------------------------------------------ *)
(** ** C8: missing project id *)

(** C8: on a physical device, once the procedure has queried the
    permission and it ends up granted (already, or after the one request),
    while neither [expoConfig] nor [easConfig] provides a project id, the
    procedure alerts and rejects with "Project ID not found", and no token
    fetch (no network call) is attempted. *)
Theorem register_missing_project_id (env : Env) :
  Device_isDevice env = true ->
  In EGetPermissions (fst (run_M (registerForPushNotificationsAsync env))) ->
  (getPermissionsAsync env = Ok "granted" \/
   exists st, getPermissionsAsync env = Ok st /\ st <> "granted" /\
              requestPermissionsAsync env = Ok "granted") ->
  expoConfig_projectId env = None ->
  easConfig_projectId env = None ->
  snd (run_M (registerForPushNotificationsAsync env)) = Err project_id_error /\
  forallb (fun ev => negb (token_fetch ev))
          (fst (run_M (registerForPushNotificationsAsync env))) = true /\
  In (EAlert "Project ID not found") (fst (run_M (registerForPushNotificationsAsync env))).
Proof.
  intros Hdev Hreach Hperm Hexpo Heas. unfold_M. rewrite Hdev in *.
  rewrite Hexpo, Heas in *. simpl in *.
  destruct (String.eqb (Platform_OS env) "android") eqn:Ha;
    [destruct (setNotificationChannelAsync env) as [[]|e0] eqn:Hc|]; simpl in *;
    try (destruct Hreach as [Hr|[]]; discriminate).
  - destruct Hperm as [Hg | (st & Hg & Hne & Hr)]; rewrite Hg in *; simpl in *.
    + repeat split; simpl; tauto.
    + destruct (String.eqb_spec st "granted"); [contradiction|]. simpl.
      rewrite Hr. simpl. repeat split; simpl; tauto.
  - destruct Hperm as [Hg | (st & Hg & Hne & Hr)]; rewrite Hg in *; simpl in *.
    + repeat split; simpl; tauto.
    + destruct (String.eqb_spec st "granted"); [contradiction|]. simpl.
      rewrite Hr. simpl. repeat split; simpl; tauto.
Qed.

Lemma register_missing_project_id_witness :
  let env := sample_env "android" true (Ok tt) (Ok "denied") (Ok "granted") None
                        (Ok "ExponentPushToken[abc123]") in
  snd (run_M (registerForPushNotificationsAsync env)) = Err project_id_error.
Proof.
  intros env.
  refine (proj1 (register_missing_project_id env eq_refl _ _ eq_refl eq_refl)).
  - vm_compute. tauto.
  - right. exists "denied". split; [reflexivity|]. split; [discriminate|reflexivity].
Defined.

(* ------------------------------------------------------------------ *)
(** ** C9: the token the provider hands out is returned *)

(** C9: on a physical device whose permission is already granted and whose
    project id resolves (a non-empty string), when the provider is asked
    for a token and responds with [t] (e.g. "ExponentPushToken[abc123]"),
    the procedure resolves with exactly [t]. *)
Theorem register_returns_provider_token (env : Env) (t : string) :
  Device_isDevice env = true ->
  getPermissionsAsync env = Ok "granted" ->
  falsy (resolved_projectId env) = false ->
  getExpoPushTokenAsync env (resolved_projectId env) = Ok t ->
  In (EGetExpoPushToken (resolved_projectId env))
     (fst (run_M (registerForPushNotificationsAsync env))) ->
  snd (run_M (registerForPushNotificationsAsync env)) = Ok (Some t).
Proof.
  unfold resolved_projectId.
  intros Hdev Hperm Hpid Htok Hreach. unfold_M. rewrite Hdev, Hperm in *.
  simpl in *. rewrite Hpid in *. rewrite Htok in *.
  destruct (String.eqb (Platform_OS env) "android") eqn:Ha;
    [destruct (setNotificationChannelAsync env) as [[]|e0] eqn:Hc|]; simpl in *;
    try reflexivity.
  destruct Hreach as [Hr|[]]; discriminate.
Qed.

Lemma register_returns_provider_token_witness :
  let env := sample_env "ios" true (Ok tt) (Ok "granted") (Ok "granted") (Some "proj")
                        (Ok "ExponentPushToken[abc123]") in
  snd (run_M (registerForPushNotificationsAsync env)) = Ok (Some "ExponentPushToken[abc123]").
Proof.
  intros env.
  apply (register_returns_provider_token env "ExponentPushToken[abc123]");
    vm_compute; auto.
Defined.

(* ------------------------------------------------------------------ *)
(** ** C6: registration failures end up in the token field *)

(** The hook's promise chain never rejects. *)
Lemma registration_chain_total (env : Env) :
  exists v, snd (run_M (registration_chain env)) = Ok v.
Proof.
  unfold run_M, registration_chain, try_catch, bind, ret.
  destruct (registerForPushNotificationsAsync env []) as [tr [a|e]]; eauto.
Qed.

(** C6: whenever the registration procedure rejects with error [e], the
    hook's [.catch] turns it into the string [`${e}`]; the chain itself
    always resolves (a registration failure is never propagated), and when
    instance [i]'s registration settles, [`${e}`] is stored in its
    [expoPushToken] cell. *)
Theorem registration_error_stored_as_token (env : Env) (s : Proc) (i : nat) (e : js_error) :
  snd (run_M (registerForPushNotificationsAsync env)) = Err e ->
  existsb (Nat.eqb i) (pendingRegistrations s) = true ->
  (forall env', exists v, snd (run_M (registration_chain env')) = Ok v) /\
  snd (run_M (registration_chain env)) = Ok (error_to_string e) /\
  instances (step s (Settle i env)) =
    alter (setExpoPushToken (error_to_string e)) i (instances s).
Proof.
  intros Hrej Hpend.
  assert (Hchain : snd (run_M (registration_chain env)) = Ok (error_to_string e)).
  { unfold run_M, registration_chain, try_catch, bind, ret in *.
    cbv beta in *.
    destruct (registerForPushNotificationsAsync env []) as [tr [a|e']];
      simpl in *; congruence. }
  split; [exact registration_chain_total|]. split; [exact Hchain|].
  simpl. unfold settle. rewrite Hpend. rewrite Hchain. reflexivity.
Qed.

Lemma registration_error_stored_as_token_witness :
  let env := sample_env "ios" false (Ok tt) (Ok "granted") (Ok "granted") None (Ok "") in
  snd (run_M (registration_chain env)) =
    Ok "Error: Must use physical device for push notifications".
Proof.
  intros env.
  exact (proj1 (proj2 (registration_error_stored_as_token env (run initial_proc [Mount]) 0
                          physical_device_error eq_refl eq_refl))).
Defined.

(* ------------------------------------------------------------------ *)
(** ** C3 and C10: [sendPushNotification] *)

(** The request body for the input of spec property P7. *)
Example p7_request_body :
  req_body (push_request p7_options) =
    Some ("{" ++ dquote ++ "to" ++ dquote ++ ":[" ++ dquote ++ "tok1" ++ dquote ++ "],"
          ++ dquote ++ "sound" ++ dquote ++ ":" ++ dquote ++ "default" ++ dquote ++ ","
          ++ dquote ++ "title" ++ dquote ++ ":" ++ dquote ++ "T" ++ dquote ++ ","
          ++ dquote ++ "body" ++ dquote ++ ":" ++ dquote ++ "B" ++ dquote ++ "}").
Proof. vm_compute. reflexivity. Qed.

(** C3 (counterexample): a network failure of the POST is not swallowed:
    [fetch] rejects, nothing catches it, and the promise returned by
    [sendPushNotification] rejects with the same error. *)
Lemma C3_network_failure_reaches_caller :
  ~ (forall (fetch : Request -> fetch_result) (options : SendPushOptions),
       snd (run_M (sendPushNotification fetch options)) = Ok tt).
Proof.
  intros H.
  specialize (H (fun _ => FetchRejected (JsError "TypeError" "Network request failed"))
                p7_options).
  vm_compute in H. discriminate.
Qed.

(** C3 (amended): [sendPushNotification] has no error handling of its own:
    whatever HTTP response arrives (any status) it resolves normally
    without inspecting it, so an unsuccessful delivery is invisible to the
    caller; a rejection of the POST itself (network failure) is not caught
    and rejects the returned promise with that error. *)
Theorem sendPushNotification_outcome (fetch : Request -> fetch_result)
    (options : SendPushOptions) :
  snd (run_M (sendPushNotification fetch options)) =
    match fetch (push_request options) with
    | FetchResponse _ => Ok tt
    | FetchRejected e => Err e
    end.
Proof. unfold_M. simpl. reflexivity. Qed.

(** C10: a call of [sendPushNotification] issues exactly one request, a
    POST to the provider's push-send endpoint, with the headers
    [Accept: application/json], [Accept-Encoding: gzip, deflate] and
    [Content-Type: application/json] (header names compare
    case-insensitively), whose body is the JSON serialisation of
    [{to, sound: "default", title, body, data}]; whatever HTTP status the
    response has, the call resolves normally. *)
Theorem sendPushNotification_request (fetch : Request -> fetch_result)
    (options : SendPushOptions) (status : Z) :
  fetch (push_request options) = FetchResponse status ->
  fst (run_M (sendPushNotification fetch options)) = [EFetch (push_request options)] /\
  req_url (push_request options) = "https://exp.host/--/api/v2/push/send" /\
  req_method (push_request options) = "POST" /\
  header_get (push_request options) "Accept" = Some "application/json" /\
  header_get (push_request options) "Accept-Encoding" = Some "gzip, deflate" /\
  header_get (push_request options) "Content-Type" = Some "application/json" /\
  req_body (push_request options) =
    JSON_stringify (JObj [("to", JArr (map JStr (to options)));
                          ("sound", JStr "default");
                          ("title", JStr (title options));
                          ("body", JStr (body options));
                          ("data", match data options with
                                   | Some d => JObj d | None => JUndefined end)]) /\
  snd (run_M (sendPushNotification fetch options)) = Ok tt.
Proof.
  intros Hresp. unfold_M. simpl. rewrite Hresp.
  repeat split; reflexivity.
Qed.

Lemma sendPushNotification_request_witness :
  fst (run_M (sendPushNotification (fun _ => FetchResponse 500) p7_options)) =
    [EFetch (push_request p7_options)] /\
  snd (run_M (sendPushNotification (fun _ => FetchResponse 500) p7_options)) = Ok tt.
Proof.
  destruct (sendPushNotification_request (fun _ => FetchResponse 500) p7_options 500 eq_refl)
    as (H1 & _ & _ & _ & _ & _ & _ & H8).
  split; [exact H1 | exact H8].
Defined.

(* ------------------------------------------------------------------ *)
(** ** The hook: general facts about the steps *)

Lemma alter_fmap_same {A B} (g : A -> B) (f : A -> A) (i : nat) (l : list A) :
  (forall x, g (f x) = g x) -> g <$> alter f i l = g <$> l.
Proof.
  intros Hg. apply list_eq. intros j.
  rewrite !list_lookup_fmap, list_lookup_alter.
  case_decide; subst; [destruct (l !! j); simpl; congruence | reflexivity].
Qed.

Lemma notify_all_fmap {B} (g : Instance -> B) n ls insts :
  (forall v h, g (setNotifications v h) = g h) ->
  g <$> notify_all n ls insts = g <$> insts.
Proof.
  intros Hg. unfold notify_all. revert insts.
  induction ls as [|l ls IH]; intros insts; simpl; [reflexivity|].
  rewrite IH. apply alter_fmap_same. intros; apply Hg.
Qed.

Lemma length_notify_all n ls insts : length (notify_all n ls insts) = length insts.
Proof.
  rewrite <- (length_fmap (fun _ : Instance => tt)), notify_all_fmap by reflexivity.
  apply length_fmap.
Qed.

Lemma notify_all_small n ls insts :
  (forall l, In l ls -> snd l = []) ->
  (forall i h, insts !! i = Some h -> length (notifications h) <= 1) ->
  forall i h, notify_all n ls insts !! i = Some h -> length (notifications h) <= 1.
Proof.
  unfold notify_all. revert insts.
  induction ls as [|l ls IH]; intros insts Hls Hsmall; simpl; [exact Hsmall|].
  apply IH; [intros; apply Hls; simpl; auto|].
  intros i h Hi. rewrite list_lookup_alter in Hi. case_decide; subst.
  - destruct (insts !! fst l) eqn:E; simpl in Hi; [|discriminate].
    injection Hi as <-. simpl. rewrite (Hls l) by (simpl; auto). simpl. lia.
  - eauto.
Qed.

Lemma notify_all_hit n ls insts i :
  (forall l, In l ls -> snd l = [] /\ fst l < length insts) ->
  (In i (map fst ls) \/ exists h, insts !! i = Some h /\ notifications h = [n]) ->
  exists h, notify_all n ls insts !! i = Some h /\ notifications h = [n].
Proof.
  unfold notify_all. revert insts.
  induction ls as [|l ls IH]; intros insts Hls Hhit; simpl in *.
  - destruct Hhit as [[]|H]; exact H.
  - apply IH.
    + intros l' Hl'. rewrite length_alter. apply Hls; auto.
    + destruct (Hls l (or_introl eq_refl)) as [Hsnd Hlt].
      destruct (decide (fst l = i)) as [<-|Hne].
      * right. rewrite list_lookup_alter_eq.
        destruct (lookup_lt_is_Some_2 insts (fst l) Hlt) as [h Hh]. rewrite Hh.
        eexists; split; [reflexivity|]. simpl. rewrite Hsnd. reflexivity.
      * destruct Hhit as [[Heq|Hin]|(h & Hh & Hn)]; [contradiction| left; exact Hin |].
        right. exists h. rewrite list_lookup_alter_ne by exact Hne. auto.
Qed.

Lemma lookup_snoc_inv {A} (l : list A) (x y : A) (i : nat) :
  (l ++ [x])%list !! i = Some y -> l !! i = Some y \/ (i = length l /\ y = x).
Proof.
  rewrite lookup_app. destruct (l !! i) eqn:E; [auto|].
  intros Hi. apply list_lookup_singleton_Some in Hi as [Hi ->].
  apply lookup_ge_None in E. right. split; [lia|reflexivity].
Qed.

Lemma inv_mount (s : Proc) : Inv s -> Inv (mount s).
Proof.
  intros (Hl & Hsm & [Hreg Hpend] & Htok & [Hlen Hg]).
  unfold mount. destruct (areListenersReady s) eqn:G; simpl;
    unfold Inv, listeners_wf, stored_small, registrations_wf, unregistered_token_empty, guard_wf; simpl.
  - refine (conj _ (conj _ (conj (conj _ _) (conj _ (conj _ _))))).
    + intros l Hin. destruct (Hl l Hin). rewrite length_app. simpl. split; [auto|lia].
    + intros i h Hi. apply lookup_snoc_inv in Hi as [Hi|[_ ->]]; [eauto|simpl; lia].
    + intros j Hj. rewrite length_app. simpl. specialize (Hreg j Hj). lia.
    + exact Hpend.
    + intros i h Hi Hnot. apply lookup_snoc_inv in Hi as [Hi|[_ ->]]; [eauto|reflexivity].
    + exact Hlen.
    + intros; discriminate.
  - rewrite (Hg eq_refl). refine (conj _ (conj _ (conj (conj _ _) (conj _ (conj _ _))))).
    + intros l [<-|[]]. rewrite length_app. simpl. split; [reflexivity|lia].
    + intros i h Hi. apply lookup_snoc_inv in Hi as [Hi|[_ ->]]; [eauto|simpl; lia].
    + intros j Hj. rewrite length_app. simpl.
      apply in_app_or in Hj as [Hj|[<-|[]]]; [specialize (Hreg j Hj)|]; lia.
    + intros j Hj. apply in_app_or in Hj as [Hj|Hj]; apply in_or_app; auto.
    + intros i h Hi Hnot. apply lookup_snoc_inv in Hi as [Hi|[Hi ->]]; [|reflexivity].
      apply (Htok i h Hi). intros Hin. apply Hnot, in_or_app. auto.
    + simpl. lia.
    + intros; discriminate.
Qed.

Lemma inv_unmount (i : nat) (s : Proc) : Inv s -> Inv (unmount i s).
Proof.
  intros HI. unfold unmount.
  destruct (instances s !! i) as [h|] eqn:Hh; [|exact HI].
  destruct (mounted h); [|exact HI].
  destruct HI as (Hl & Hsm & [Hreg Hpend] & Htok & [Hlen Hg]).
  unfold Inv, listeners_wf, stored_small, registrations_wf, unregistered_token_empty, guard_wf; simpl.
  refine (conj _ (conj _ (conj (conj _ _) (conj _ (conj _ _))))).
  - intros l Hin. apply filter_In in Hin as [Hin _]. rewrite length_alter. apply Hl, Hin.
  - intros j h' Hj. rewrite list_lookup_alter in Hj. case_decide; subst.
    + rewrite Hh in Hj. injection Hj as <-. simpl. eauto.
    + eauto.
  - intros j Hj. rewrite length_alter. auto.
  - exact Hpend.
  - intros j h' Hj Hnot. rewrite list_lookup_alter in Hj. case_decide; subst.
    + rewrite Hh in Hj. injection Hj as <-. simpl. eauto.
    + eauto.
  - etransitivity; [apply List.filter_length_le|exact Hlen].
  - intros G. rewrite (Hg G). reflexivity.
Qed.

Lemma inv_receive (n : Notification) (s : Proc) : Inv s -> Inv (receive n s).
Proof.
  intros (Hl & Hsm & [Hreg Hpend] & Htok & [Hlen Hg]). unfold receive.
  unfold Inv, listeners_wf, stored_small, registrations_wf, unregistered_token_empty, guard_wf; simpl.
  refine (conj _ (conj _ (conj (conj _ _) (conj _ (conj _ _))))).
  - intros l Hin. rewrite length_notify_all. apply Hl, Hin.
  - apply notify_all_small; [intros l Hin; apply Hl, Hin | exact Hsm].
  - intros j Hj. rewrite length_notify_all. auto.
  - exact Hpend.
  - intros j h' Hj Hnot.
    assert (Hf : (expoPushToken <$> notify_all n (receivedListeners s) (instances s)) !! j =
                 (expoPushToken <$> instances s) !! j)
      by (rewrite notify_all_fmap by reflexivity; reflexivity).
    rewrite !list_lookup_fmap, Hj in Hf.
    destruct (instances s !! j) as [h|] eqn:E; simpl in Hf; [|discriminate].
    injection Hf as ->. eauto.
  - exact Hlen.
  - exact Hg.
Qed.

Lemma inv_settle (i : nat) (env : Env) (s : Proc) : Inv s -> Inv (settle i env s).
Proof.
  intros HI. unfold settle.
  destruct (existsb (Nat.eqb i) (pendingRegistrations s)) eqn:Hp; [|exact HI].
  apply existsb_exists in Hp as (j & Hi & Hij). apply Nat.eqb_eq in Hij. subst j.
  destruct HI as (Hl & Hsm & [Hreg Hpend] & Htok & [Hlen Hg]).
  destruct (snd (run_M (registration_chain env))) as [v|e];
  unfold Inv, listeners_wf, stored_small, registrations_wf, unregistered_token_empty, guard_wf;
  simpl; refine (conj _ (conj _ (conj (conj _ _) (conj _ (conj _ _))))).
  - intros l Hin. rewrite length_alter. auto.
  - intros j h' Hj. rewrite list_lookup_alter in Hj. case_decide; subst.
    + destruct (instances s !! j) as [h|] eqn:E; simpl in Hj; [|discriminate].
      injection Hj as <-. simpl. eauto.
    + eauto.
  - intros j Hj. rewrite length_alter. auto.
  - intros j Hj. apply filter_In in Hj as [Hj _]. auto.
  - intros j h' Hj Hnot. rewrite list_lookup_alter in Hj. case_decide; subst.
    + exfalso. apply Hnot, Hpend, Hi.
    + eauto.
  - exact Hlen.
  - exact Hg.
  - exact Hl.
  - exact Hsm.
  - exact Hreg.
  - intros j Hj. apply filter_In in Hj as [Hj _]. auto.
  - exact Htok.
  - exact Hlen.
  - exact Hg.
Qed.

Lemma inv_step (s : Proc) (e : Event) : Inv s -> Inv (step s e).
Proof.
  destruct e; simpl.
  - apply inv_mount.
  - apply inv_unmount.
  - apply inv_receive.
  - apply inv_settle.
Qed.

Lemma inv_run_from (s : Proc) (evs : list Event) : Inv s -> Inv (run s evs).
Proof.
  unfold run. revert s. induction evs as [|e evs IH]; intros s HI; simpl; auto.
  apply IH, inv_step, HI.
Qed.

Lemma inv_initial : Inv initial_proc.
Proof.
  unfold Inv, listeners_wf, stored_small, registrations_wf, unregistered_token_empty, guard_wf;
  simpl. refine (conj _ (conj _ (conj (conj _ _) (conj _ (conj _ _))))).
  - intros l [].
  - intros i h Hi. rewrite lookup_nil in Hi. discriminate.
  - intros j [].
  - intros j [].
  - intros i h Hi. rewrite lookup_nil in Hi. discriminate.
  - simpl. lia.
  - reflexivity.
Qed.

Lemma inv_run (evs : list Event) : Inv (run initial_proc evs).
Proof. apply inv_run_from, inv_initial. Qed.

Lemma run_app (s : Proc) (evs evs' : list Event) :
  run s (evs ++ evs') = run (run s evs) evs'.
Proof. unfold run. apply fold_left_app. Qed.

Lemma guard_mount (s : Proc) : areListenersReady (mount s) = true.
Proof. unfold mount. destruct (areListenersReady s) eqn:G; simpl; reflexivity. Qed.

(** Once set, the guard stays set. *)
Lemma guard_step (s : Proc) (e : Event) :
  areListenersReady s = true -> areListenersReady (step s e) = true.
Proof.
  intros G. destruct e as [|i|n|i env]; simpl.
  - apply guard_mount.
  - unfold unmount. destruct (instances s !! i) as [h|]; [destruct (mounted h)|]; exact G.
  - exact G.
  - unfold settle. destruct (existsb _ _); [destruct (snd _)|]; exact G.
Qed.

Lemma guard_run (s : Proc) (evs : list Event) :
  areListenersReady s = true -> areListenersReady (run s evs) = true.
Proof.
  unfold run. revert s. induction evs as [|e evs IH]; intros s G; simpl; auto.
  apply IH, guard_step, G.
Qed.

(** With the guard set, no step calls the registration procedure. *)
Lemma register_log_frozen_step (s : Proc) (e : Event) :
  areListenersReady s = true -> registerInvocations (step s e) = registerInvocations s.
Proof.
  intros G. destruct e as [|i|n|i env]; simpl.
  - unfold mount. rewrite G. reflexivity.
  - unfold unmount. destruct (instances s !! i) as [h|]; [destruct (mounted h)|]; reflexivity.
  - reflexivity.
  - unfold settle. destruct (existsb _ _); [destruct (snd _)|]; reflexivity.
Qed.

Lemma register_log_frozen (s : Proc) (evs : list Event) :
  areListenersReady s = true -> registerInvocations (run s evs) = registerInvocations s.
Proof.
  unfold run. revert s. induction evs as [|e evs IH]; intros s G; simpl; auto.
  rewrite IH by (apply guard_step, G). apply register_log_frozen_step, G.
Qed.

Lemma length_instances_step (s : Proc) (e : Event) :
  length (instances s) <= length (instances (step s e)).
Proof.
  destruct e as [|i|n|i env]; simpl.
  - unfold mount. destruct (areListenersReady s); simpl;
      [|destruct (areListenersReady s)]; simpl; rewrite length_app; simpl; lia.
  - unfold unmount. destruct (instances s !! i) as [h|]; [destruct (mounted h)|];
      simpl; rewrite ?length_alter; lia.
  - unfold receive. simpl. rewrite length_notify_all. lia.
  - unfold settle. destruct (existsb _ _); [destruct (snd _)|]; simpl;
      rewrite ?length_alter; lia.
Qed.

Lemma length_instances_run (s : Proc) (evs : list Event) :
  length (instances s) <= length (instances (run s evs)).
Proof.
  unfold run. revert s. induction evs as [|e evs IH]; intros s; simpl; [lia|].
  etransitivity; [apply (length_instances_step s e)|apply IH].
Qed.

Lemma guard_after_mount (s : Proc) (evs : list Event) :
  In Mount evs -> areListenersReady (run s evs) = true.
Proof.
  unfold run. revert s. induction evs as [|e evs IH]; intros s Hin; simpl in *; [contradiction|].
  destruct Hin as [->|Hin].
  - apply guard_run. apply guard_mount.
  - apply IH, Hin.
Qed.

(* ------------------------------------------------------------------ *)
(** ** C1 and C2: what the "notification received" listener stores *)

(** C1 (evaluation at the failing input): after one mount and the arrival
    of records A, B and C, the stored list is [[C]], not [[C; B; A]]: the
    listener prepends to the list its closure captured at mount time (the
    initial empty list), not to the stored list. *)
Lemma notification_listener_keeps_only_latest :
  notifications <$> instances (run initial_proc
     [Mount; Receive (mk_notification "A"); Receive (mk_notification "B");
      Receive (mk_notification "C")]) !! 0 = Some [mk_notification "C"] /\
  notifications <$> instances (run initial_proc
     [Mount; Receive (mk_notification "A"); Receive (mk_notification "B");
      Receive (mk_notification "C")]) !! 0 <>
    Some [mk_notification "C"; mk_notification "B"; mk_notification "A"].
Proof. vm_compute. split; [reflexivity|discriminate]. Qed.

(** C2: the listener's closure holds the initial empty [notifications], so
    in every reachable state each stored notification list has at most one
    element, and right after a record [n] arrives, every instance with an
    attached listener stores exactly [[n]]. *)
Theorem stored_notifications_at_most_latest (evs : list Event) :
  (forall i h, instances (run initial_proc evs) !! i = Some h ->
               length (notifications h) <= 1) /\
  (forall n l, In l (receivedListeners (run initial_proc evs)) ->
     exists h, instances (run initial_proc (evs ++ [Receive n])) !! fst l = Some h /\
               notifications h = [n]).
Proof.
  destruct (inv_run evs) as (Hl & Hsm & _). split; [exact Hsm|].
  intros n l Hin. rewrite run_app. simpl. unfold receive. simpl.
  apply notify_all_hit.
  - exact Hl.
  - left. apply in_map, Hin.
Qed.

(* ------------------------------------------------------------------ *)
(** ** C4: later activations *)

(** C4: once the hook has been mounted in the process, a further mount
    finds [areListenersReady] set: it attaches no listener and does not
    call the registration procedure; the guard is never cleared by any
    later event, and the new instance's [expoPushToken] stays [""]
    whatever happens afterwards. *)
Theorem later_activation_skips_registration (evs evs' : list Event) :
  In Mount evs ->
  areListenersReady (run initial_proc evs) = true /\
  receivedListeners (mount (run initial_proc evs)) = receivedListeners (run initial_proc evs) /\
  responseListeners (mount (run initial_proc evs)) = responseListeners (run initial_proc evs) /\
  registerInvocations (mount (run initial_proc evs)) = registerInvocations (run initial_proc evs) /\
  pendingRegistrations (mount (run initial_proc evs)) = pendingRegistrations (run initial_proc evs) /\
  areListenersReady (run (mount (run initial_proc evs)) evs') = true /\
  exists h, instances (run (mount (run initial_proc evs)) evs') !!
              length (instances (run initial_proc evs)) = Some h /\
            expoPushToken h = "".
Proof.
  intros Hm.
  set (s := run initial_proc evs).
  assert (G : areListenersReady s = true) by (apply guard_after_mount, Hm).
  assert (Hs1 : mount s = {| areListenersReady := areListenersReady s;
                             instances := instances s ++ [{| expoPushToken := "";
                                              notifications := []; mounted := true |}];
                             receivedListeners := receivedListeners s;
                             responseListeners := responseListeners s;
                             pendingRegistrations := pendingRegistrations s;
                             registerInvocations := registerInvocations s |})
    by (unfold mount; rewrite G; reflexivity).
  split; [exact G|]. rewrite Hs1. simpl.
  split; [reflexivity|]. split; [reflexivity|]. split; [reflexivity|]. split; [reflexivity|].
  rewrite <- Hs1.
  assert (G1 : areListenersReady (mount s) = true) by apply guard_mount.
  split; [apply guard_run, G1|].
  assert (HI : Inv (run (mount s) evs')).
  { replace (mount s) with (run initial_proc (evs ++ [Mount])) by (rewrite run_app; reflexivity).
    apply inv_run_from, inv_run. }
  destruct HI as (_ & _ & _ & Htok & _).
  assert (Hlen : length (instances s) < length (instances (run (mount s) evs'))).
  { eapply Nat.lt_le_trans; [|apply length_instances_run].
    rewrite Hs1. simpl. rewrite length_app. simpl. lia. }
  destruct (lookup_lt_is_Some_2 _ _ Hlen) as [h Hh].
  exists h. split; [exact Hh|]. apply (Htok _ _ Hh).
  rewrite register_log_frozen by exact G1. rewrite Hs1. simpl.
  destruct (inv_run evs) as (_ & _ & [Hreg _] & _).
  intros Hin. specialize (Hreg _ Hin). fold s in Hreg. lia.
Qed.

Lemma later_activation_skips_registration_witness :
  areListenersReady (run initial_proc [Mount]) = true /\
  registerInvocations (mount (run initial_proc [Mount])) =
    registerInvocations (run initial_proc [Mount]).
Proof.
  destruct (later_activation_skips_registration [Mount] [] (or_introl eq_refl))
    as (H1 & _ & _ & H4 & _).
  split; [exact H1|exact H4].
Defined.

(* ------------------------------------------------------------------ *)
(** ** C5: listener attachment happens once *)

(** C5: two activations leave exactly one "notification received"
    listener, and one incoming record then yields exactly one stored
    entry over all instances; in every reachable state at most one such
    listener is attached. *)
Theorem listener_attached_once (n : Notification) :
  length (receivedListeners (run initial_proc [Mount; Mount])) = 1 /\
  List.concat (map notifications (instances (run initial_proc [Mount; Mount; Receive n]))) = [n] /\
  (forall evs, length (receivedListeners (run initial_proc evs)) <= 1).
Proof.
  split; [reflexivity|]. split; [reflexivity|].
  intros evs. destruct (inv_run evs) as (_ & _ & _ & _ & [Hlen _]). exact Hlen.
Qed.

(* ------------------------------------------------------------------ *)
(** ** Further properties of [registerForPushNotificationsAsync] *)

(** The procedure never resolves with [undefined]: it resolves only with
    the token the provider returned for the resolved project id, after
    asking the provider for it. *)
Theorem register_resolves_only_with_provider_token (env : Env) (r : option string) :
  snd (run_M (registerForPushNotificationsAsync env)) = Ok r ->
  exists t, r = Some t /\
            getExpoPushTokenAsync env (resolved_projectId env) = Ok t /\
            In (EGetExpoPushToken (resolved_projectId env))
               (fst (run_M (registerForPushNotificationsAsync env))).
Proof.
  unfold resolved_projectId. unfold_M. split_run; intros H; cbn in *; try discriminate.
  all: injection H as <-; eexists; split; [reflexivity|]; split; [reflexivity|];
       rewrite ?in_app_iff; simpl; tauto.
Qed.

(** Every alert is paired with a rejection carrying the alerted text, and a
    run alerts at most once ([handleRegistrationError] alerts, then
    throws). *)
Theorem register_alert_then_reject (env : Env) :
  count is_alert (fst (run_M (registerForPushNotificationsAsync env))) <= 1 /\
  (forall m, In (EAlert m) (fst (run_M (registerForPushNotificationsAsync env))) ->
     snd (run_M (registerForPushNotificationsAsync env)) = Err (JsError "Error" m)).
Proof.
  unfold_M. split_run; cbn; (split; [lia|]); intros m Hm;
    rewrite ?in_app_iff in Hm; simpl in Hm; intuition congruence.
Qed.

(** The permission is requested at most once, and never when the existing
    status is already "granted". *)
Theorem register_requests_permission_at_most_once (env : Env) :
  count is_request_permissions (fst (run_M (registerForPushNotificationsAsync env))) <= 1 /\
  (getPermissionsAsync env = Ok "granted" ->
   count is_request_permissions (fst (run_M (registerForPushNotificationsAsync env))) = 0).
Proof.
  unfold_M. split_run; cbn; (split; [lia|]); intros Hg; congruence || reflexivity.
Qed.

(** Permission refused: on a physical device that gets past the channel
    setup, when the existing status is not "granted" and the one request
    does not grant it either, the procedure alerts once and rejects with
    "Permission not granted to get push token for push notification!",
    without any token request. *)
Theorem register_permission_denied (env : Env) (st st' : string) :
  Device_isDevice env = true ->
  channel_ok env ->
  getPermissionsAsync env = Ok st -> st <> "granted" ->
  requestPermissionsAsync env = Ok st' -> st' <> "granted" ->
  snd (run_M (registerForPushNotificationsAsync env)) = Err permission_error /\
  count is_alert (fst (run_M (registerForPushNotificationsAsync env))) = 1 /\
  count is_request_permissions (fst (run_M (registerForPushNotificationsAsync env))) = 1 /\
  count is_token_request (fst (run_M (registerForPushNotificationsAsync env))) = 0.
Proof.
  intros Hdev Hch Hp Hst Hr Hst'. unfold channel_ok in Hch. unfold_M.
  rewrite Hdev, Hp, Hr. apply String.eqb_neq in Hst, Hst'.
  destruct (String.eqb_spec (Platform_OS env) "android") as [Ha|Ha].
  - destruct Hch as [Hch|Hch]; [contradiction|]. rewrite Hch.
    cbn. rewrite Hst. cbn. rewrite Hst'. cbn. auto.
  - cbn. rewrite Hst. cbn. rewrite Hst'. cbn. auto.
Qed.

Lemma register_permission_denied_witness :
  let env := sample_env "android" true (Ok tt) (Ok "undetermined") (Ok "denied")
                        (Some "proj") (Ok "ExponentPushToken[abc123]") in
  snd (run_M (registerForPushNotificationsAsync env)) = Err permission_error.
Proof.
  intros env.
  refine (proj1 (register_permission_denied env "undetermined" "denied"
                   eq_refl (or_intror eq_refl) eq_refl _ eq_refl _)); discriminate.
Defined.

(** Provider failure: when the procedure gets to the token request and the
    provider rejects with [e], the procedure alerts [`${e}`] and rejects
    with [new Error(`${e}`)]; the hook then stores the text of that second
    error, so the provider's message appears wrapped twice
    (e.g. "Error: Error: ..."). *)
Theorem register_provider_error (env : Env) (e : js_error) :
  In (EGetExpoPushToken (resolved_projectId env))
     (fst (run_M (registerForPushNotificationsAsync env))) ->
  getExpoPushTokenAsync env (resolved_projectId env) = Err e ->
  snd (run_M (registerForPushNotificationsAsync env)) =
    Err (JsError "Error" (error_to_string e)) /\
  In (EAlert (error_to_string e)) (fst (run_M (registerForPushNotificationsAsync env))) /\
  snd (run_M (registration_chain env)) =
    Ok (error_to_string (JsError "Error" (error_to_string e))).
Proof.
  unfold resolved_projectId. unfold registration_chain. unfold_M.
  split_run; cbn; intros Hin He;
    rewrite ?in_app_iff in Hin; simpl in Hin; try (intuition congruence; fail).
  all: injection He as ->; repeat split; rewrite ?in_app_iff; simpl; tauto.
Qed.

Lemma register_provider_error_witness :
  let env := sample_env "ios" true (Ok tt) (Ok "granted") (Ok "granted") (Some "proj")
               (Err (JsError "Error" "Network request failed")) in
  snd (run_M (registration_chain env)) =
    Ok "Error: Error: Network request failed".
Proof.
  intros env.
  exact (proj2 (proj2 (register_provider_error env (JsError "Error" "Network request failed")
                         (or_intror (or_introl eq_refl)) eq_refl))).
Defined.

(** The token is requested at most once, and only with the resolved
    project id, which is then a non-empty string. *)
Theorem register_token_request_uses_resolved_id (env : Env) (q : option string) :
  In (EGetExpoPushToken q) (fst (run_M (registerForPushNotificationsAsync env))) ->
  q = resolved_projectId env /\ falsy q = false /\
  count is_token_request (fst (run_M (registerForPushNotificationsAsync env))) = 1.
Proof.
  intros Hin.
  assert (Hf : List.filter is_token_request (fst (run_M (registerForPushNotificationsAsync env))) = [] \/
               (List.filter is_token_request (fst (run_M (registerForPushNotificationsAsync env))) =
                  [EGetExpoPushToken (resolved_projectId env)] /\
                falsy (resolved_projectId env) = false)).
  { clear Hin. unfold resolved_projectId. unfold_M.
    split_run; cbn; rewrite ?filter_app; cbn; auto. }
  assert (Hq : In (EGetExpoPushToken q)
                  (List.filter is_token_request (fst (run_M (registerForPushNotificationsAsync env)))))
    by (apply filter_In; split; [exact Hin|reflexivity]).
  unfold count. destruct Hf as [Hf|[Hf Hfalsy]]; rewrite Hf in *; [destruct Hq|].
  destruct Hq as [Hq|[]]. injection Hq as Hq. subst q.
  split; [reflexivity|split; [exact Hfalsy|reflexivity]].
Qed.

Lemma register_token_request_uses_resolved_id_witness :
  let env := sample_env "ios" true (Ok tt) (Ok "granted") (Ok "granted") (Some "proj")
               (Ok "ExponentPushToken[abc123]") in
  count is_token_request (fst (run_M (registerForPushNotificationsAsync env))) = 1.
Proof.
  intros env.
  exact (proj2 (proj2 (register_token_request_uses_resolved_id env (Some "proj")
                         (or_intror (or_introl eq_refl))))).
Defined.

(** [??] only falls back on [undefined]: an empty [expoConfig] project id
    hides the [easConfig] one, and the procedure then rejects with
    "Project ID not found" without requesting a token, whatever
    [easConfig] holds. *)
Theorem register_empty_expo_project_id (env : Env) :
  Device_isDevice env = true ->
  channel_ok env ->
  getPermissionsAsync env = Ok "granted" ->
  expoConfig_projectId env = Some "" ->
  snd (run_M (registerForPushNotificationsAsync env)) = Err project_id_error /\
  count is_token_request (fst (run_M (registerForPushNotificationsAsync env))) = 0.
Proof.
  intros Hdev Hch Hp Hexpo. unfold channel_ok in Hch. unfold_M.
  rewrite Hdev, Hp, Hexpo.
  destruct (String.eqb_spec (Platform_OS env) "android") as [Ha|Ha].
  - destruct Hch as [Hch|Hch]; [contradiction|]. rewrite Hch. simpl.
    split; reflexivity.
  - simpl. split; reflexivity.
Qed.

Lemma register_empty_expo_project_id_witness :
  let env := {| Platform_OS := "ios"; Device_isDevice := true;
                setNotificationChannelAsync := Ok tt;
                getPermissionsAsync := Ok "granted"; requestPermissionsAsync := Ok "granted";
                expoConfig_projectId := Some ""; easConfig_projectId := Some "proj";
                getExpoPushTokenAsync := fun _ => Ok "ExponentPushToken[abc123]" |} in
  snd (run_M (registerForPushNotificationsAsync env)) = Err project_id_error.
Proof.
  intros env.
  refine (proj1 (register_empty_expo_project_id env eq_refl _ eq_refl eq_refl)).
  left. unfold env. simpl. discriminate.
Defined.

(* ------------------------------------------------------------------ *)
(** ** Further properties of the hook *)

Lemma map_fst_filter {A B} (p : A -> bool) (l : list (A * B)) :
  map fst (List.filter (fun x => p (fst x)) l) = List.filter p (map fst l).
Proof.
  induction l as [|[a b] l IH]; simpl; [reflexivity|].
  destruct (p a); simpl; rewrite IH; reflexivity.
Qed.

Lemma hook_shape_step (s : Proc) (e : Event) : hook_shape s -> hook_shape (step s e).
Proof.
  intros Hs. pose proof Hs as (Hf & Ht & Hresp).
  destruct (areListenersReady s) eqn:G.
  - destruct (Ht eq_refl) as [Hreg Hall].
    destruct e as [|i|n|i env]; simpl.
    + unfold mount. rewrite G. unfold hook_shape. simpl. rewrite ?G.
      split; [discriminate|]. split; [auto|exact Hresp].
    + unfold unmount. destruct (instances s !! i) as [h|]; [destruct (mounted h)|];
        unfold hook_shape; simpl; rewrite ?G;
        (split; [discriminate|]); (split; [intros _; split; [exact Hreg|]|]);
        try exact Hall; try exact Hresp.
      * apply List.Forall_forall. intros x Hx. apply filter_In in Hx as [Hx _].
        exact (proj1 (List.Forall_forall _ _) Hall x Hx).
      * rewrite Hresp. symmetry. apply (map_fst_filter (fun j => negb (Nat.eqb j i))).
    + unfold hook_shape, receive; simpl. rewrite G.
      split; [discriminate|]. split; [auto|exact Hresp].
    + unfold settle. destruct (existsb _ _); [destruct (snd _)|];
        unfold hook_shape; simpl; rewrite G;
        (split; [discriminate|]); (split; [auto|exact Hresp]).
  - destruct (Hf eq_refl) as (Hinst & Hreg & Hrl).
    destruct e as [|i|n|i env]; simpl.
    + unfold mount. rewrite G. simpl. rewrite ?G. unfold hook_shape. simpl.
      rewrite Hinst, Hreg, Hrl, Hresp, Hrl. simpl.
      split; [discriminate|]. split; [intros _; split; [reflexivity|]|reflexivity].
      constructor; [reflexivity|constructor].
    + unfold unmount. rewrite Hinst. simpl. exact Hs.
    + unfold hook_shape, receive; simpl. rewrite G, Hrl, Hinst. simpl.
      split; [intros _; auto|]. split; [discriminate|]. rewrite Hresp, Hrl. reflexivity.
    + unfold settle. destruct (existsb _ _); [destruct (snd _)|];
        unfold hook_shape; simpl; rewrite ?G, ?Hinst, ?Hreg, ?Hrl;
        (split; [intros _; simpl; auto|split; [discriminate|rewrite Hresp, Hrl; reflexivity]]).
Qed.

Lemma hook_shape_run (evs : list Event) : hook_shape (run initial_proc evs).
Proof.
  assert (H0 : hook_shape initial_proc)
    by (unfold hook_shape; simpl; split; [auto|split; [discriminate|reflexivity]]).
  revert H0. generalize initial_proc. unfold run.
  induction evs as [|e evs IH]; intros s Hs; simpl; auto.
  apply IH, hook_shape_step, Hs.
Qed.

Lemma guard_step_eq (s : Proc) (e : Event) :
  areListenersReady (step s e) = areListenersReady s || is_mount e.
Proof.
  destruct e as [|i|n|i env]; simpl.
  - rewrite guard_mount, orb_true_r. reflexivity.
  - unfold unmount. destruct (instances s !! i) as [h|]; [destruct (mounted h)|];
      rewrite orb_false_r; reflexivity.
  - rewrite orb_false_r. reflexivity.
  - unfold settle. destruct (existsb _ _); [destruct (snd _)|]; rewrite orb_false_r; reflexivity.
Qed.

Lemma guard_run_eq (s : Proc) (evs : list Event) :
  areListenersReady (run s evs) = areListenersReady s || existsb is_mount evs.
Proof.
  unfold run. revert s. induction evs as [|e evs IH]; intros s; simpl.
  - rewrite orb_false_r. reflexivity.
  - rewrite IH. fold (step s e). rewrite guard_step_eq, orb_assoc. reflexivity.
Qed.

(** Over the whole life of the process, [registerForPushNotificationsAsync]
    is called by the hook at most once: for the first mounted instance,
    as soon as some instance has been mounted, and never otherwise. *)
Theorem registration_invoked_once_per_process (evs : list Event) :
  registerInvocations (run initial_proc evs) = if existsb is_mount evs then [0] else [].
Proof.
  destruct (hook_shape_run evs) as (Hf & Ht & _).
  pose proof (guard_run_eq initial_proc evs) as G. simpl in G.
  destruct (existsb is_mount evs).
  - apply (Ht G).
  - apply (Hf G).
Qed.

(** Every attached listener belongs to the first mounted instance, and the
    "notification received" and "notification response" listeners are
    always attached and removed together. *)
Theorem listeners_belong_to_first_instance (evs : list Event) :
  Forall (fun l => fst l = 0) (receivedListeners (run initial_proc evs)) /\
  responseListeners (run initial_proc evs) = map fst (receivedListeners (run initial_proc evs)).
Proof.
  destruct (hook_shape_run evs) as (Hf & Ht & Hresp). split; [|exact Hresp].
  destruct (areListenersReady (run initial_proc evs)).
  - apply (Ht eq_refl).
  - rewrite (proj2 (proj2 (Hf eq_refl))). constructor.
Qed.

Lemma listeners_stay_empty_step (s : Proc) (e : Event) :
  areListenersReady s = true -> receivedListeners s = [] ->
  receivedListeners (step s e) = [].
Proof.
  intros G Hrl. destruct e as [|i|n|i env]; simpl.
  - unfold mount. rewrite G. exact Hrl.
  - unfold unmount. destruct (instances s !! i) as [h|]; [destruct (mounted h)|];
      simpl; rewrite ?Hrl; reflexivity.
  - exact Hrl.
  - unfold settle. destruct (existsb _ _); [destruct (snd _)|]; exact Hrl.
Qed.

(** Once the listening instance has been torn down, the process never
    listens again: no later mount re-attaches (the guard stays set), and
    incoming notifications reach no instance. *)
Theorem no_listening_after_teardown (evs evs' : list Event) (n : Notification) :
  In Mount evs ->
  receivedListeners (run initial_proc evs) = [] ->
  receivedListeners (run (run initial_proc evs) evs') = [] /\
  responseListeners (run (run initial_proc evs) evs') = [] /\
  instances (receive n (run (run initial_proc evs) evs')) =
    instances (run (run initial_proc evs) evs').
Proof.
  intros Hm Hrl.
  assert (Hnil : receivedListeners (run (run initial_proc evs) evs') = []).
  { pose proof (guard_after_mount initial_proc evs Hm) as G.
    revert G Hrl. generalize (run initial_proc evs). unfold run.
    induction evs' as [|e evs' IH]; intros s G Hrl; simpl; [exact Hrl|].
    apply IH; [apply guard_step, G | apply listeners_stay_empty_step; assumption]. }
  split; [exact Hnil|]. split.
  - rewrite <- run_app. destruct (hook_shape_run (evs ++ evs')) as (_ & _ & Hresp).
    rewrite Hresp, run_app, Hnil. reflexivity.
  - unfold receive. simpl. rewrite Hnil. reflexivity.
Qed.

Lemma no_listening_after_teardown_witness :
  receivedListeners (run (run initial_proc [Mount; Unmount 0]) [Mount]) = [].
Proof.
  exact (proj1 (no_listening_after_teardown [Mount; Unmount 0] [Mount] (mk_notification "A")
                  (or_introl eq_refl) eq_refl)).
Defined.





(* ------------------------------------------------------------------ *)
(** ** Further properties of [sendPushNotification] *)

(** Without [data] the request body carries no "data" member at all: it is
    the serialisation of [{to, sound: "default", title, body}]. *)
Theorem push_body_without_data (options : SendPushOptions) :
  data options = None ->
  req_body (push_request options) =
    JSON_stringify (JObj [("to", JArr (map JStr (to options)));
                          ("sound", JStr "default");
                          ("title", JStr (title options));
                          ("body", JStr (body options))]).
Proof.
  intros Hd. unfold push_request, push_message. rewrite Hd. reflexivity.
Qed.

Lemma push_body_without_data_witness :
  req_body (push_request p7_options) =
    JSON_stringify (JObj [("to", JArr [JStr "tok1"]); ("sound", JStr "default");
                          ("title", JStr "T"); ("body", JStr "B")]).
Proof. exact (push_body_without_data p7_options eq_refl). Defined.

Lemma register_resolves_only_with_provider_token_witness :
  let env := sample_env "ios" true (Ok tt) (Ok "granted") (Ok "granted") (Some "proj")
               (Ok "ExponentPushToken[abc123]") in
  exists t, Some "ExponentPushToken[abc123]" = Some t /\
            getExpoPushTokenAsync env (resolved_projectId env) = Ok t /\
            In (EGetExpoPushToken (resolved_projectId env))
               (fst (run_M (registerForPushNotificationsAsync env))).
Proof.
  intros env.
  exact (register_resolves_only_with_provider_token env (Some "ExponentPushToken[abc123]") eq_refl).
Defined.
